(** * Channel proposal messages and the global channel backend of go-perun

    Shallow embedding of [client/proposalmsgs.go] (the three proposal
    messages, their wire codecs and their registered decoders) and of the
    global backend wrappers exercised by [channel/backend_test.go].

    Streams are modelled by their bytes: an [io.Writer] by the list of bytes
    an encoder writes (together with the error it returns), an [io.Reader]
    by the list of bytes that remain unread.  Collaborators that live in
    other packages (addresses, application data, allocations, big integers,
    strings) are the fields of the class [Ext]. *)

From Stdlib Require Import ZArith String List Lia.
From Stdlib Require Import Strings.Byte.
Import ListNotations.
Open Scope string_scope.
Open Scope list_scope.
Open Scope Z_scope.

(** ** Go errors *)

(** The error values the code builds: [errors.New]-like leaf errors (also
    those returned by other packages), [errors.Errorf] with its format and
    integer arguments, and [errors.WithMessage]. *)
Inductive error : Type :=
| Err (msg : string)
| Errorf (format : string) (args : list Z)
| WithMessage (cause : error) (msg : string).

(** [Wraps e c]: the error [e] carries [c] as its cause (or is [c]). *)
Fixpoint Wraps (e c : error) : Prop :=
  e = c \/ match e with
           | WithMessage e' _ => Wraps e' c
           | _ => False
           end.

Definition io_EOF : error := Err "EOF".
Definition io_ErrUnexpectedEOF : error := Err "unexpected EOF".

(** What an encoder leaves behind: the bytes written to the writer and the
    returned error. *)
Definition W : Type := list byte * option error.

(** Sequencing of encoders: [if err := a; err != nil { return err }; b]. *)
Definition wseq (a : W) (k : unit -> W) : W :=
  match a with
  | (bs, Some e) => (bs, Some e)
  | (bs, None) => let '(bs2, e2) := k tt in (bs ++ bs2, e2)
  end.

Notation "a ;;w b" := (wseq a (fun _ => b)) (at level 61, right associativity).

(** [errors.WithMessage] applied to the error of an encoder. *)
Definition wrap_w (a : W) (msg : string) : W :=
  match a with
  | (bs, Some e) => (bs, Some (WithMessage e msg))
  | (bs, None) => (bs, None)
  end.

(** ** Fixed-width integers of package [wire]

    Modelled from the spec: [wire.Encode]/[wire.Decode] of [uint64], [int32]
    and [[32]byte] (package [wire], not under src/): fixed width, network
    byte order, as [binary.Write]/[binary.Read] do. *)

Definition byte_of_Z (z : Z) : byte :=
  match Byte.of_N (Z.to_N z) with Some b => b | None => x00 end.

Definition Z_of_byte (b : byte) : Z := Z.of_N (Byte.to_N b).

(** Big-endian, [n] bytes, of [x] modulo [256^n]. *)
Fixpoint be_bytes (n : nat) (x : Z) : list byte :=
  match n with
  | O => []
  | S n' => be_bytes n' (x / 256) ++ [byte_of_Z (x mod 256)]
  end.

Definition be_value (bs : list byte) : Z :=
  fold_left (fun acc b => acc * 256 + Z_of_byte b) bs 0.

(** [io.ReadFull]: on a short stream every available byte is consumed and
    [io.EOF] (nothing read) or [io.ErrUnexpectedEOF] is returned. *)
Definition read_full (n : nat) (r : list byte) : list byte * list byte * option error :=
  if Nat.leb n (length r) then (firstn n r, skipn n r, None)
  else (r, [], Some (match r with [] => io_EOF | _ => io_ErrUnexpectedEOF end)).

Definition MaxInt32 : Z := 2147483647.

(** Go's conversion [int32(x)]. *)
Definition wrap_int32 (x : Z) : Z :=
  let u := x mod 2 ^ 32 in if u >=? 2 ^ 31 then u - 2 ^ 32 else u.

Definition encode_uint64 (x : Z) : W := (be_bytes 8 x, None).
Definition encode_int32 (x : Z) : W := (be_bytes 4 x, None).

Definition decode_uint64 (r : list byte) : Z * list byte * option error :=
  let '(bs, r', err) := read_full 8 r in (be_value bs, r', err).

Definition decode_int32 (r : list byte) : Z * list byte * option error :=
  let '(bs, r', err) := read_full 4 r in
  let u := be_value bs in
  (if u >=? 2 ^ 31 then u - 2 ^ 32 else u, r', err).

(** A [SessionID] is a [[32]byte]; as a list its length is 32. *)
Definition SessionID : Type := list byte.

Definition encode_SessionID (s : SessionID) : W := (s, None).
Definition decode_SessionID (r : list byte) : SessionID * list byte * option error :=
  read_full 32 r.

(** ** Collaborators from other packages

    [wallet.Address] with its [Encode] method and [wallet.DecodeAddress];
    [channel.Data] with its [Encode] method; [channel.App] resolved by
    [channel.AppFromDefinition] with its [DecodeData]; [channel.Allocation]
    encoded by its [Encode] (through [perunio.Encode], also on a nil
    pointer) and decoded in place by its [Decode]; the [wire] codecs of
    [*big.Int] and [string].  A decoder returns the value it produced, the
    unread rest of the stream and its error. *)
Class Ext : Type := {
  Address : Type;
  addr_nil : Address;
  Address_Encode : Address -> W;
  DecodeAddress : list byte -> Address * list byte * option error;
  Data : Type;
  data_nil : Data;
  Data_Encode : Data -> W;
  App : Type;
  AppFromDefinition : Address -> App * option error;
  App_DecodeData : App -> list byte -> Data * list byte * option error;
  Allocation : Type;
  alloc_zero : Allocation;
  Allocation_Encode : option Allocation -> W;
  Allocation_Decode : Allocation -> list byte -> Allocation * list byte * option error;
  BigInt_Encode : option Z -> W;
  BigInt_Decode : list byte -> option Z * list byte * option error;
  String_Encode : string -> W;
  String_Decode : list byte -> string * list byte * option error
}.

Section Messages.
Context {E : Ext}.

(** ** ChannelProposal *)

Record ChannelProposal : Type := mkChannelProposal {
  ChallengeDuration : Z;                (* uint64 *)
  Nonce : option Z;                     (* *big.Int, None is nil *)
  ParticipantAddr : Address;
  AppDef : Address;
  InitData : Data;
  InitBals : option Allocation;         (* *channel.Allocation *)
  Parts : list Address
}.

Definition ChannelProposal_zero : ChannelProposal :=
  mkChannelProposal 0 None addr_nil addr_nil data_nil None [].

(** The loop [for i := range c.Parts { ... }] of [Encode]. *)
Fixpoint encode_parts (i : nat) (parts : list Address) : W :=
  match parts with
  | [] => ([], None)
  | a :: parts' =>
      match Address_Encode a with
      | (bs, Some _) => (bs, Some (Errorf "error encoding participant %d" [Z.of_nat i]))
      | (bs, None) => let '(bs2, e2) := encode_parts (S i) parts' in (bs ++ bs2, e2)
      end
  end.

Definition ChannelProposal_Encode (c : ChannelProposal) : W :=
  (encode_uint64 c.(ChallengeDuration) ;;w BigInt_Encode c.(Nonce)) ;;w
  (Address_Encode c.(ParticipantAddr) ;;w Address_Encode c.(AppDef) ;;w
   Data_Encode c.(InitData) ;;w Allocation_Encode c.(InitBals)) ;;w
  (if Z.of_nat (length c.(Parts)) >? MaxInt32
   then ([], Some (Errorf "expected maximum number of participants %d, got %d"
                    [MaxInt32; Z.of_nat (length c.(Parts))]))
   else
     let numParts := wrap_int32 (Z.of_nat (length c.(Parts))) in
     encode_int32 numParts ;;w encode_parts 0 c.(Parts)).

(** Field assignments on the receiver [c *ChannelProposal]. *)
Definition set_ChallengeDuration (c : ChannelProposal) x :=
  mkChannelProposal x c.(Nonce) c.(ParticipantAddr) c.(AppDef) c.(InitData) c.(InitBals) c.(Parts).
Definition set_Nonce (c : ChannelProposal) x :=
  mkChannelProposal c.(ChallengeDuration) x c.(ParticipantAddr) c.(AppDef) c.(InitData) c.(InitBals) c.(Parts).
Definition set_ParticipantAddr (c : ChannelProposal) x :=
  mkChannelProposal c.(ChallengeDuration) c.(Nonce) x c.(AppDef) c.(InitData) c.(InitBals) c.(Parts).
Definition set_AppDef (c : ChannelProposal) x :=
  mkChannelProposal c.(ChallengeDuration) c.(Nonce) c.(ParticipantAddr) x c.(InitData) c.(InitBals) c.(Parts).
Definition set_InitData (c : ChannelProposal) x :=
  mkChannelProposal c.(ChallengeDuration) c.(Nonce) c.(ParticipantAddr) c.(AppDef) x c.(InitBals) c.(Parts).
Definition set_InitBals (c : ChannelProposal) x :=
  mkChannelProposal c.(ChallengeDuration) c.(Nonce) c.(ParticipantAddr) c.(AppDef) c.(InitData) x c.(Parts).
Definition set_Parts (c : ChannelProposal) x :=
  mkChannelProposal c.(ChallengeDuration) c.(Nonce) c.(ParticipantAddr) c.(AppDef) c.(InitData) c.(InitBals) x.

(** Slice element assignment [s[i] = v] (only used with [i < len(s)]). *)
Fixpoint set_nth {A : Type} (s : list A) (i : nat) (v : A) : list A :=
  match s, i with
  | [], _ => []
  | _ :: s', O => v :: s'
  | x :: s', S i' => x :: set_nth s' i' v
  end.

(** The loop [for i := 0; i < len(c.Parts); i++ { c.Parts[i], err = ... }]:
    [k] iterations are left, [i] is the index. *)
Fixpoint decode_parts (k i : nat) (parts : list Address) (r : list byte)
  : list Address * list byte * option error :=
  match k with
  | O => (parts, r, None)
  | S k' =>
      let '(a, r', err) := DecodeAddress r in
      let parts' := set_nth parts i a in
      match err with
      | Some e => (parts', r', Some e)
      | None => decode_parts k' (S i) parts' r'
      end
  end.

(** [func (c *ChannelProposal) Decode(r io.Reader) error]: the final value
    of the receiver, the unread stream and the returned error. *)
Definition ChannelProposal_Decode (c : ChannelProposal) (r : list byte)
  : ChannelProposal * list byte * option error :=
  let '(cd, r, err) := decode_uint64 r in
  match err with Some e => (c, r, Some e) | None =>
  let c := set_ChallengeDuration c cd in
  let '(n, r, err) := BigInt_Decode r in
  match err with Some e => (c, r, Some e) | None =>
  let c := set_Nonce c n in
  let '(pa, r, err) := DecodeAddress r in
  let c := set_ParticipantAddr c pa in
  match err with Some e => (c, r, Some e) | None =>
  let '(ad, r, err) := DecodeAddress r in
  let c := set_AppDef c ad in
  match err with Some e => (c, r, Some e) | None =>
  let '(app, err) := AppFromDefinition c.(AppDef) in
  match err with Some e => (c, r, Some e) | None =>
  let '(d, r, err) := App_DecodeData app r in
  let c := set_InitData c d in
  match err with Some e => (c, r, Some e) | None =>
  let c := set_InitBals c (Some alloc_zero) in
  let '(al, r, err) := Allocation_Decode alloc_zero r in
  let c := set_InitBals c (Some al) in
  match err with Some e => (c, r, Some e) | None =>
  let '(numParts, r, err) := decode_int32 r in
  match err with Some e => (c, r, Some e) | None =>
  if numParts <? 2 then
    (c, r, Some (Errorf "expected at least 2 participants, got %d" [numParts]))
  else
  let c := set_Parts c (repeat addr_nil (Z.to_nat numParts)) in
  let '(parts, r, err) := decode_parts (length c.(Parts)) 0 c.(Parts) r in
  let c := set_Parts c parts in
  match err with Some e => (c, r, Some e) | None =>
  (c, r, None)
  end end end end end end end end end.

(** ** ChannelProposalAcc *)

Record ChannelProposalAcc : Type := mkChannelProposalAcc {
  Acc_SessID : SessionID;
  Acc_ParticipantAddr : Address
}.

Definition ChannelProposalAcc_zero : ChannelProposalAcc :=
  mkChannelProposalAcc (repeat x00 32) addr_nil.

Definition ChannelProposalAcc_Encode (acc : ChannelProposalAcc) : W :=
  wrap_w (encode_SessionID acc.(Acc_SessID)) "SID encoding" ;;w
  wrap_w (Address_Encode acc.(Acc_ParticipantAddr)) "participant address encoding".

Definition ChannelProposalAcc_Decode (acc : ChannelProposalAcc) (r : list byte)
  : ChannelProposalAcc * list byte * option error :=
  let '(sid, r, err) := decode_SessionID r in
  match err with Some e => (acc, r, Some (WithMessage e "SID decoding")) | None =>
  let acc := mkChannelProposalAcc sid acc.(Acc_ParticipantAddr) in
  let '(pa, r, err) := DecodeAddress r in
  let acc := mkChannelProposalAcc acc.(Acc_SessID) pa in
  match err with Some e => (acc, r, Some (WithMessage e "participant address decoding")) | None =>
  (acc, r, None)
  end end.

(** ** ChannelProposalRej *)

Record ChannelProposalRej : Type := mkChannelProposalRej {
  Rej_SessID : SessionID;
  Reason : string
}.

Definition ChannelProposalRej_zero : ChannelProposalRej :=
  mkChannelProposalRej (repeat x00 32) "".

(** [wire.Encode(w, rej.SessID, rej.Reason)]. *)
Definition ChannelProposalRej_Encode (rej : ChannelProposalRej) : W :=
  encode_SessionID rej.(Rej_SessID) ;;w String_Encode rej.(Reason).

(** [wire.Decode(r, &rej.SessID, &rej.Reason)]: each value in turn, the
    first error is returned as it is. *)
Definition ChannelProposalRej_Decode (rej : ChannelProposalRej) (r : list byte)
  : ChannelProposalRej * list byte * option error :=
  let '(sid, r, err) := decode_SessionID r in
  match err with Some e => (rej, r, Some e) | None =>
  let rej := mkChannelProposalRej sid rej.(Reason) in
  let '(s, r, err) := String_Decode r in
  match err with Some e => (rej, r, Some e) | None =>
  let rej := mkChannelProposalRej rej.(Rej_SessID) s in
  (rej, r, None)
  end end.

(** ** Registered decoders

    [init] registers, per message type, [func(r) { var m T; return &m,
    m.Decode(r) }]: the zero value is decoded into and returned whatever
    the error. *)

Inductive MsgType : Type := TChannelProposal | TChannelProposalAcc | TChannelProposalRej.

Inductive Msg : Type :=
| MsgChannelProposal (m : ChannelProposal)
| MsgChannelProposalAcc (m : ChannelProposalAcc)
| MsgChannelProposalRej (m : ChannelProposalRej).

Definition decoder (t : MsgType) (r : list byte) : Msg * option error :=
  match t with
  | TChannelProposal =>
      let '(m, _, err) := ChannelProposal_Decode ChannelProposal_zero r in
      (MsgChannelProposal m, err)
  | TChannelProposalAcc =>
      let '(m, _, err) := ChannelProposalAcc_Decode ChannelProposalAcc_zero r in
      (MsgChannelProposalAcc m, err)
  | TChannelProposalRej =>
      let '(m, _, err) := ChannelProposalRej_Decode ChannelProposalRej_zero r in
      (MsgChannelProposalRej m, err)
  end.

End Messages.

(** ** The global backend of package [channel]

    Modelled from the spec: [channel/backend.go] ([Backend], [SetBackend] and
    the package-level [ChannelID], [Sign] and [Verify]; only its test is
    under src/).  The process-wide variable holds the installed backend;
    [SetBackend] overwrites it; each wrapper calls the corresponding method
    of the installed backend once and returns its result; a call with no
    backend installed dereferences nil and panics.  The methods invoked are
    recorded, with the backend they were invoked on, in [calls]. *)
Module GlobalBackend.
Section Backend.
Context {Params ID Account State Sig Address : Type}.

Record Backend : Type := mkBackend {
  b_ChannelID : Params -> ID;
  b_Sign : Account -> Params -> State -> Sig * option error;
  b_Verify : Address -> Params -> State -> Sig -> bool * option error
}.

Inductive Call : Type :=
| CallChannelID (b : Backend) (p : Params)
| CallSign (b : Backend) (acc : Account) (p : Params) (s : State)
| CallVerify (b : Backend) (addr : Address) (p : Params) (s : State) (sig : Sig).

Record Global : Type := mkGlobal {
  backend : option Backend;
  calls : list Call
}.

Inductive Outcome (A : Type) : Type :=
| Panic
| Return (a : A) (g : Global).
Arguments Panic {A}.
Arguments Return {A} a g.

Definition SetBackend (b : Backend) (g : Global) : Global :=
  mkGlobal (Some b) g.(calls).

Definition record_call (g : Global) (c : Call) : Global :=
  mkGlobal g.(backend) (g.(calls) ++ [c]).

Definition ChannelID (p : Params) (g : Global) : Outcome ID :=
  match g.(backend) with
  | None => Panic
  | Some b => Return (b.(b_ChannelID) p) (record_call g (CallChannelID b p))
  end.

Definition Sign (acc : Account) (p : Params) (s : State) (g : Global)
  : Outcome (Sig * option error) :=
  match g.(backend) with
  | None => Panic
  | Some b => Return (b.(b_Sign) acc p s) (record_call g (CallSign b acc p s))
  end.

Definition Verify (addr : Address) (p : Params) (s : State) (sig : Sig) (g : Global)
  : Outcome (bool * option error) :=
  match g.(backend) with
  | None => Panic
  | Some b => Return (b.(b_Verify) addr p s sig) (record_call g (CallVerify b addr p s sig))
  end.

(** A sequence of calls to the package-level wrappers. *)
Inductive Op : Type :=
| OpChannelID (p : Params)
| OpSign (acc : Account) (p : Params) (s : State)
| OpVerify (addr : Address) (p : Params) (s : State) (sig : Sig).

Inductive Result : Type :=
| RChannelID (id : ID)
| RSign (r : Sig * option error)
| RVerify (r : bool * option error).

Definition run_op (op : Op) (g : Global) : Outcome Result :=
  match op with
  | OpChannelID p =>
      match ChannelID p g with Panic => Panic | Return r g' => Return (RChannelID r) g' end
  | OpSign acc p s =>
      match Sign acc p s g with Panic => Panic | Return r g' => Return (RSign r) g' end
  | OpVerify addr p s sig =>
      match Verify addr p s sig g with Panic => Panic | Return r g' => Return (RVerify r) g' end
  end.

Fixpoint run_ops (ops : list Op) (g : Global) : Outcome (list Result) :=
  match ops with
  | [] => Return [] g
  | op :: ops' =>
      match run_op op g with
      | Panic => Panic
      | Return r g' =>
          match run_ops ops' g' with
          | Panic => Panic
          | Return rs g'' => Return (r :: rs) g''
          end
      end
  end.

(** What calling [op] directly on the backend [b] returns, and the call. *)
Definition direct_result (b : Backend) (op : Op) : Result :=
  match op with
  | OpChannelID p => RChannelID (b.(b_ChannelID) p)
  | OpSign acc p s => RSign (b.(b_Sign) acc p s)
  | OpVerify addr p s sig => RVerify (b.(b_Verify) addr p s sig)
  end.

Definition direct_call (b : Backend) (op : Op) : Call :=
  match op with
  | OpChannelID p => CallChannelID b p
  | OpSign acc p s => CallSign b acc p s
  | OpVerify addr p s sig => CallVerify b addr p s sig
  end.

End Backend.
Arguments Panic {Params ID Account State Sig Address A}.
Arguments Return {Params ID Account State Sig Address A} a g.
End GlobalBackend.

(** ** A concrete instance of the collaborators

    One-byte addresses ([xff] cannot be encoded), application data and allocations, a one-byte
    [*big.Int] codec, strings prefixed by a one-byte length, and a single
    known application at address [x01]. *)

Definition toy_read1 (r : list byte) : byte * list byte * option error :=
  match r with
  | [] => (x00, [], Some io_EOF)
  | b :: r' => (b, r', None)
  end.

Definition toy_ext : Ext := {|
  Address := byte;
  addr_nil := x00;
  Address_Encode := fun a =>
    if Byte.eqb a xff then ([], Some (Err "invalid address")) else ([a], None);
  DecodeAddress := toy_read1;
  Data := byte;
  data_nil := x00;
  Data_Encode := fun d => ([d], None);
  App := unit;
  AppFromDefinition := fun a =>
    if Byte.eqb a x01 then (tt, None) else (tt, Some (Err "unknown app"));
  App_DecodeData := fun _ r => toy_read1 r;
  Allocation := byte;
  alloc_zero := x00;
  Allocation_Encode := fun o =>
    match o with Some a => ([a], None) | None => ([], Some (Err "nil allocation")) end;
  Allocation_Decode := fun _ r => toy_read1 r;
  BigInt_Encode := fun o =>
    match o with Some z => ([byte_of_Z z], None) | None => ([], Some (Err "nil big.Int")) end;
  BigInt_Decode := fun r =>
    match r with
    | [] => (None, [], Some io_EOF)
    | b :: r' => (Some (Z_of_byte b), r', None)
    end;
  String_Encode := fun s =>
    (byte_of_Z (Z.of_nat (String.length s)) :: list_byte_of_string s, None);
  String_Decode := fun r =>
    match r with
    | [] => (""%string, [], Some io_EOF)
    | n :: r' =>
        let k := Z.to_nat (Z_of_byte n) in
        if Nat.leb k (length r') then (string_of_list_byte (firstn k r'), skipn k r', None)
        else (""%string, [], Some io_ErrUnexpectedEOF)
    end
|}.

Definition toy_proposal (parts : list byte) : @ChannelProposal toy_ext :=
  @mkChannelProposal toy_ext 100 (Some 42) x07 x01 x05 (Some x09) parts.

(** ** Validity of a field: its own codec round-trips on it *)

Definition roundtrip {T : Type} (enc : T -> W)
  (dec : list byte -> T * list byte * option error) (x : T) : Prop :=
  exists bs, enc x = (bs, None) /\ forall rest, dec (bs ++ rest) = (x, rest, None).

(** * Proofs *)

(** ** Fixed-width integers *)

Lemma Z_of_byte_of_Z (z : Z) : 0 <= z < 256 -> Z_of_byte (byte_of_Z z) = z.
Proof.
  intros Hz. unfold Z_of_byte, byte_of_Z.
  destruct (Byte.of_N (Z.to_N z)) eqn:Hb.
  - apply Byte.to_of_N in Hb. rewrite Hb. apply Z2N.id. lia.
  - apply Byte.of_N_None_iff in Hb. lia.
Qed.

Lemma length_be_bytes (n : nat) (x : Z) : length (be_bytes n x) = n.
Proof.
  revert x. induction n as [|n IH]; intros x; [reflexivity|].
  simpl. rewrite length_app, IH. simpl. lia.
Qed.

Lemma be_value_snoc (bs : list byte) (b : byte) :
  be_value (bs ++ [b]) = be_value bs * 256 + Z_of_byte b.
Proof. unfold be_value. rewrite fold_left_app. reflexivity. Qed.

Lemma be_value_be_bytes (n : nat) (x : Z) :
  be_value (be_bytes n x) = x mod 256 ^ Z.of_nat n.
Proof.
  revert x. induction n as [|n IH]; intros x.
  - simpl. rewrite Z.mod_1_r. reflexivity.
  - simpl be_bytes. rewrite be_value_snoc, IH, Z_of_byte_of_Z
      by (apply Z.mod_pos_bound; lia).
    rewrite Nat2Z.inj_succ, Z.pow_succ_r by lia.
    rewrite Z.rem_mul_r by (try apply Z.pow_nonzero; try apply Z.pow_pos_nonneg; lia).
    lia.
Qed.

Lemma read_full_app (n : nat) (bs rest : list byte) :
  length bs = n -> read_full n (bs ++ rest) = (bs, rest, None).
Proof.
  intros Hl. unfold read_full. rewrite length_app.
  replace (Nat.leb n (length bs + length rest)) with true
    by (symmetry; apply Nat.leb_le; lia).
  subst n. rewrite firstn_app, skipn_app, Nat.sub_diag, firstn_all, skipn_all.
  simpl. rewrite app_nil_r. reflexivity.
Qed.

Lemma decode_uint64_encode (x : Z) (rest : list byte) :
  0 <= x < 2 ^ 64 ->
  decode_uint64 (fst (encode_uint64 x) ++ rest) = (x, rest, None).
Proof.
  intros Hx. unfold decode_uint64, encode_uint64; cbn [fst].
  rewrite read_full_app by apply length_be_bytes. cbn beta iota zeta.
  rewrite be_value_be_bytes, Z.mod_small; [reflexivity|].
  change (256 ^ Z.of_nat 8) with (2 ^ 64). lia.
Qed.

Lemma wrap_int32_small (x : Z) : 0 <= x <= MaxInt32 -> wrap_int32 x = x.
Proof.
  unfold wrap_int32, MaxInt32. intros Hx.
  rewrite Z.mod_small by lia.
  destruct (x >=? 2 ^ 31) eqn:H; [apply Z.geb_le in H; lia | reflexivity].
Qed.

Lemma decode_int32_encode (x : Z) (rest : list byte) :
  0 <= x <= MaxInt32 ->
  decode_int32 (fst (encode_int32 x) ++ rest) = (x, rest, None).
Proof.
  intros Hx. unfold decode_int32, encode_int32; cbn [fst].
  rewrite read_full_app by apply length_be_bytes. cbn beta iota zeta.
  rewrite be_value_be_bytes, Z.mod_small
    by (change (256 ^ Z.of_nat 4) with (2 ^ 32); unfold MaxInt32 in Hx; lia).
  destruct (x >=? 2 ^ 31) eqn:H; [apply Z.geb_le in H; unfold MaxInt32 in Hx; lia | reflexivity].
Qed.

Lemma decode_SessionID_encode (s rest : list byte) :
  length s = 32%nat ->
  decode_SessionID (fst (encode_SessionID s) ++ rest) = (s, rest, None).
Proof. intros Hl. apply read_full_app. exact Hl. Qed.

Section Proofs.
Context {E : Ext}.

(** ** The participant loops *)

Lemma set_nth_middle {A : Type} (prefix s : list A) (x v : A) :
  set_nth (prefix ++ x :: s) (length prefix) v = prefix ++ v :: s.
Proof. induction prefix as [|y prefix IH]; simpl; [reflexivity | now rewrite IH]. Qed.

Lemma parts_roundtrip (l : list Address) (i : nat) :
  Forall (roundtrip Address_Encode DecodeAddress) l ->
  exists bs, encode_parts i l = (bs, None) /\
    forall prefix rest,
      decode_parts (length l) (length prefix) (prefix ++ repeat addr_nil (length l)) (bs ++ rest)
      = (prefix ++ l, rest, None).
Proof.
  revert i. induction l as [|a l IH]; intros i Hl.
  - exists []. split; [reflexivity|]. intros prefix rest. simpl. now rewrite app_nil_r.
  - inversion Hl as [|? ? [bsa [Hea Hda]] Hl']; subst.
    destruct (IH (S i) Hl') as [bs2 [He2 Hd2]].
    exists (bsa ++ bs2). split.
    + simpl. rewrite Hea, He2. reflexivity.
    + intros prefix rest. simpl length. simpl repeat. cbn [decode_parts].
      rewrite <- app_assoc, Hda. cbn beta iota zeta.
      rewrite set_nth_middle.
      replace (prefix ++ a :: repeat addr_nil (length l))
        with ((prefix ++ [a]) ++ repeat addr_nil (length l)) by (rewrite <- app_assoc; reflexivity).
      replace (S (length prefix)) with (length (prefix ++ [a])) by (rewrite length_app; simpl; lia).
      rewrite Hd2, <- app_assoc. reflexivity.
Qed.

(** ** Round trip of the three messages *)

Lemma ChannelProposal_roundtrip (p : ChannelProposal) (app : App) (al : Allocation) :
  0 <= p.(ChallengeDuration) < 2 ^ 64 ->
  roundtrip BigInt_Encode BigInt_Decode p.(Nonce) ->
  roundtrip Address_Encode DecodeAddress p.(ParticipantAddr) ->
  roundtrip Address_Encode DecodeAddress p.(AppDef) ->
  AppFromDefinition p.(AppDef) = (app, None) ->
  roundtrip Data_Encode (App_DecodeData app) p.(InitData) ->
  p.(InitBals) = Some al ->
  roundtrip (fun a => Allocation_Encode (Some a)) (Allocation_Decode alloc_zero) al ->
  (2 <= length p.(Parts))%nat ->
  Z.of_nat (length p.(Parts)) <= MaxInt32 ->
  Forall (roundtrip Address_Encode DecodeAddress) p.(Parts) ->
  exists bs, ChannelProposal_Encode p = (bs, None) /\
    forall c rest, ChannelProposal_Decode c (bs ++ rest) = (p, rest, None).
Proof.
  destruct p as [cd n pa ad d bals parts]; cbn [ChallengeDuration Nonce ParticipantAddr
    AppDef InitData InitBals Parts].
  intros Hcd [bn [Hen Hdn]] [bpa [Hepa Hdpa]] [bad [Head Hdad]] Happ [bd [Hed Hdd]]
    -> [bal [Heal Hdal]] Hlen2 Hlen Hparts.
  destruct (parts_roundtrip parts 0 Hparts) as [bps [Heps Hdps]].
  set (len := Z.of_nat (length parts)).
  exists ((fst (encode_uint64 cd) ++ bn) ++ ((bpa ++ bad ++ bd ++ bal)
          ++ (fst (encode_int32 (wrap_int32 len)) ++ bps))).
  split.
  - unfold ChannelProposal_Encode; cbn [ChallengeDuration Nonce ParticipantAddr
      AppDef InitData InitBals Parts].
    unfold wseq. rewrite Hen, Hepa, Head, Hed, Heal.
    fold len. rewrite Z.gtb_ltb.
    replace (MaxInt32 <? len) with false by (symmetry; apply Z.ltb_ge; unfold len; lia).
    rewrite Heps. reflexivity.
  - intros c rest. repeat rewrite <- app_assoc.
    unfold ChannelProposal_Decode.
    rewrite decode_uint64_encode by exact Hcd. cbn beta iota zeta.
    rewrite Hdn. cbn beta iota zeta.
    rewrite Hdpa. cbn beta iota zeta.
    rewrite Hdad. cbn beta iota zeta.
    cbn [AppDef set_AppDef]. rewrite Happ. cbn beta iota zeta.
    rewrite Hdd. cbn beta iota zeta.
    rewrite Hdal. cbn beta iota zeta.
    rewrite wrap_int32_small by (unfold len; lia).
    rewrite decode_int32_encode by (unfold len; lia). cbn beta iota zeta.
    replace (len <? 2) with false by (symmetry; apply Z.ltb_ge; unfold len; lia).
    cbn [Parts set_Parts]. unfold len. rewrite Nat2Z.id, repeat_length.
    specialize (Hdps [] rest). cbn [Datatypes.app length] in Hdps. rewrite Hdps.
    reflexivity.
Qed.

Lemma ChannelProposalAcc_roundtrip (acc : ChannelProposalAcc) :
  length acc.(Acc_SessID) = 32%nat ->
  roundtrip Address_Encode DecodeAddress acc.(Acc_ParticipantAddr) ->
  exists bs, ChannelProposalAcc_Encode acc = (bs, None) /\
    forall c rest, ChannelProposalAcc_Decode c (bs ++ rest) = (acc, rest, None).
Proof.
  destruct acc as [sid pa]; cbn [Acc_SessID Acc_ParticipantAddr].
  intros Hsid [bpa [Hepa Hdpa]].
  exists (sid ++ bpa). split.
  - unfold ChannelProposalAcc_Encode, wseq, wrap_w, encode_SessionID.
    cbn [Acc_SessID Acc_ParticipantAddr]. rewrite Hepa. reflexivity.
  - intros c rest. rewrite <- app_assoc. unfold ChannelProposalAcc_Decode.
    rewrite (decode_SessionID_encode sid) by exact Hsid. cbn beta iota zeta.
    rewrite Hdpa. reflexivity.
Qed.

Lemma ChannelProposalRej_roundtrip (rej : ChannelProposalRej) :
  length rej.(Rej_SessID) = 32%nat ->
  roundtrip String_Encode String_Decode rej.(Reason) ->
  exists bs, ChannelProposalRej_Encode rej = (bs, None) /\
    forall c rest, ChannelProposalRej_Decode c (bs ++ rest) = (rej, rest, None).
Proof.
  destruct rej as [sid reason]; cbn [Rej_SessID Reason].
  intros Hsid [bs [Hes Hds]].
  exists (sid ++ bs). split.
  - unfold ChannelProposalRej_Encode, wseq, encode_SessionID.
    cbn [Rej_SessID Reason]. rewrite Hes. reflexivity.
  - intros c rest. rewrite <- app_assoc. unfold ChannelProposalRej_Decode.
    rewrite (decode_SessionID_encode sid) by exact Hsid. cbn beta iota zeta.
    rewrite Hds. reflexivity.
Qed.

(** C1.  Round trip: for a valid [ChannelProposal] (at least two and at
    most [2^31-1] participants, every sub-field accepted and restored by its
    own codec, [AppDef] resolving to the application that decodes
    [InitData]), [Encode] succeeds and [Decode] of its bytes, into any
    receiver and followed by any further bytes, yields exactly [p] and
    consumes exactly those bytes; the same for [ChannelProposalAcc] and
    [ChannelProposalRej] (32-byte session id, valid address or string). *)
Theorem proposal_messages_roundtrip :
  (forall (p : ChannelProposal) (app : App) (al : Allocation),
    0 <= p.(ChallengeDuration) < 2 ^ 64 ->
    roundtrip BigInt_Encode BigInt_Decode p.(Nonce) ->
    roundtrip Address_Encode DecodeAddress p.(ParticipantAddr) ->
    roundtrip Address_Encode DecodeAddress p.(AppDef) ->
    AppFromDefinition p.(AppDef) = (app, None) ->
    roundtrip Data_Encode (App_DecodeData app) p.(InitData) ->
    p.(InitBals) = Some al ->
    roundtrip (fun a => Allocation_Encode (Some a)) (Allocation_Decode alloc_zero) al ->
    (2 <= length p.(Parts))%nat ->
    Z.of_nat (length p.(Parts)) <= MaxInt32 ->
    Forall (roundtrip Address_Encode DecodeAddress) p.(Parts) ->
    exists bs, ChannelProposal_Encode p = (bs, None) /\
      forall c rest, ChannelProposal_Decode c (bs ++ rest) = (p, rest, None)) /\
  (forall acc : ChannelProposalAcc,
    length acc.(Acc_SessID) = 32%nat ->
    roundtrip Address_Encode DecodeAddress acc.(Acc_ParticipantAddr) ->
    exists bs, ChannelProposalAcc_Encode acc = (bs, None) /\
      forall c rest, ChannelProposalAcc_Decode c (bs ++ rest) = (acc, rest, None)) /\
  (forall rej : ChannelProposalRej,
    length rej.(Rej_SessID) = 32%nat ->
    roundtrip String_Encode String_Decode rej.(Reason) ->
    exists bs, ChannelProposalRej_Encode rej = (bs, None) /\
      forall c rest, ChannelProposalRej_Decode c (bs ++ rest) = (rej, rest, None)).
Proof.
  split; [|split].
  - apply ChannelProposal_roundtrip.
  - apply ChannelProposalAcc_roundtrip.
  - apply ChannelProposalRej_roundtrip.
Qed.

(** ** Decoding: the participant count, the application, partial results *)

(** C2.  Minimum participants: when every field up to the participant count
    decodes and the count read is below 2, [Decode] returns the error
    "expected at least 2 participants, got %d" carrying that count; the
    receiver's [Parts] is left as it was (nothing of the participant data is
    decoded) and the participant bytes stay unread. *)
Theorem decode_rejects_few_parts (c : ChannelProposal)
  (r r1 r2 r3 r4 r5 r6 r7 : list byte) (cd : Z) (n : option Z) (pa ad : Address)
  (app : App) (d : Data) (al : Allocation) (numParts : Z) :
  decode_uint64 r = (cd, r1, None) ->
  BigInt_Decode r1 = (n, r2, None) ->
  DecodeAddress r2 = (pa, r3, None) ->
  DecodeAddress r3 = (ad, r4, None) ->
  AppFromDefinition ad = (app, None) ->
  App_DecodeData app r4 = (d, r5, None) ->
  Allocation_Decode alloc_zero r5 = (al, r6, None) ->
  decode_int32 r6 = (numParts, r7, None) ->
  numParts < 2 ->
  ChannelProposal_Decode c r =
    (mkChannelProposal cd n pa ad d (Some al) c.(Parts), r7,
     Some (Errorf "expected at least 2 participants, got %d" [numParts])).
Proof.
  intros H1 H2 H3 H4 H5 H6 H7 H8 Hlt.
  unfold ChannelProposal_Decode.
  rewrite H1. cbn beta iota zeta. rewrite H2. cbn beta iota zeta.
  rewrite H3. cbn beta iota zeta. rewrite H4. cbn beta iota zeta.
  cbn [AppDef set_AppDef]. rewrite H5. cbn beta iota zeta.
  rewrite H6. cbn beta iota zeta. rewrite H7. cbn beta iota zeta.
  rewrite H8. cbn beta iota zeta.
  replace (numParts <? 2) with true by (symmetry; apply Z.ltb_lt; exact Hlt).
  reflexivity.
Qed.

(** C5.  Unknown application: when [AppDef] does not resolve, [Decode]
    returns the resolution error right after reading [AppDef]: the stream
    is left exactly where [AppDef] ended ([InitData] and every later field
    unread) and [InitData], [InitBals], [Parts] of the receiver are
    untouched. *)
Theorem decode_unknown_app (c : ChannelProposal) (r r1 r2 r3 r4 : list byte)
  (cd : Z) (n : option Z) (pa ad : Address) (app : App) (e : error) :
  decode_uint64 r = (cd, r1, None) ->
  BigInt_Decode r1 = (n, r2, None) ->
  DecodeAddress r2 = (pa, r3, None) ->
  DecodeAddress r3 = (ad, r4, None) ->
  AppFromDefinition ad = (app, Some e) ->
  ChannelProposal_Decode c r =
    (mkChannelProposal cd n pa ad c.(InitData) c.(InitBals) c.(Parts), r4, Some e).
Proof.
  intros H1 H2 H3 H4 H5.
  unfold ChannelProposal_Decode.
  rewrite H1. cbn beta iota zeta. rewrite H2. cbn beta iota zeta.
  rewrite H3. cbn beta iota zeta. rewrite H4. cbn beta iota zeta.
  cbn [AppDef set_AppDef]. rewrite H5. reflexivity.
Qed.

(** ** Encoding: the participant count *)

Lemma encode_prefix_ok (cd : Z) (n : option Z) (pa ad : Address) (d : Data)
  (bals : option Allocation) (parts : list Address) (bn bpa bad bd bal : list byte) :
  BigInt_Encode n = (bn, None) ->
  Address_Encode pa = (bpa, None) ->
  Address_Encode ad = (bad, None) ->
  Data_Encode d = (bd, None) ->
  Allocation_Encode bals = (bal, None) ->
  ChannelProposal_Encode (mkChannelProposal cd n pa ad d bals parts) =
    let '(bs, e) :=
      if Z.of_nat (length parts) >? MaxInt32
      then ([], Some (Errorf "expected maximum number of participants %d, got %d"
                       [MaxInt32; Z.of_nat (length parts)]))
      else encode_int32 (wrap_int32 (Z.of_nat (length parts))) ;;w encode_parts 0 parts
    in (be_bytes 8 cd ++ bn ++ bpa ++ bad ++ bd ++ bal ++ bs, e).
Proof.
  intros Hn Hpa Had Hd Hbal.
  unfold ChannelProposal_Encode; cbn [ChallengeDuration Nonce ParticipantAddr
    AppDef InitData InitBals Parts].
  unfold wseq, encode_uint64, encode_int32.
  rewrite Hn, Hpa, Had, Hd, Hbal. cbn beta iota zeta.
  destruct (Z.of_nat (length parts) >? MaxInt32); [|destruct (encode_parts 0 parts)];
    cbn beta iota zeta; rewrite !app_assoc; reflexivity.
Qed.

Lemma encode_too_many_parts (cd : Z) (n : option Z) (pa ad : Address) (d : Data)
  (bals : option Allocation) (parts : list Address) (bn bpa bad bd bal : list byte) :
  BigInt_Encode n = (bn, None) ->
  Address_Encode pa = (bpa, None) ->
  Address_Encode ad = (bad, None) ->
  Data_Encode d = (bd, None) ->
  Allocation_Encode bals = (bal, None) ->
  Z.of_nat (length parts) > MaxInt32 ->
  ChannelProposal_Encode (mkChannelProposal cd n pa ad d bals parts) =
    (be_bytes 8 cd ++ bn ++ bpa ++ bad ++ bd ++ bal,
     Some (Errorf "expected maximum number of participants %d, got %d"
             [MaxInt32; Z.of_nat (length parts)])).
Proof.
  intros Hn Hpa Had Hd Hbal Hgt.
  rewrite (encode_prefix_ok cd n pa ad d bals parts bn bpa bad bd bal) by assumption.
  rewrite Z.gtb_ltb. replace (MaxInt32 <? Z.of_nat (length parts)) with true
    by (symmetry; apply Z.ltb_lt; lia).
  rewrite !app_nil_r. reflexivity.
Qed.

(** C3 (as the code does it).  A proposal with more than [2^31-1]
    participants whose earlier fields encode without error makes [Encode]
    fail with the error "expected maximum number of participants %d, got %d"
    carrying the limit [2^31-1] and the actual count; the bytes of
    [ChallengeDuration], [Nonce], [ParticipantAddr], [AppDef], [InitData]
    and [InitBals] have already been written then, and nothing of the
    participant count or of the participants. *)
Theorem encode_rejects_too_many_parts (cd : Z) (n : option Z) (pa ad : Address)
  (d : Data) (bals : option Allocation) (parts : list Address)
  (bn bpa bad bd bal : list byte) :
  BigInt_Encode n = (bn, None) ->
  Address_Encode pa = (bpa, None) ->
  Address_Encode ad = (bad, None) ->
  Data_Encode d = (bd, None) ->
  Allocation_Encode bals = (bal, None) ->
  Z.of_nat (length parts) > MaxInt32 ->
  ChannelProposal_Encode (mkChannelProposal cd n pa ad d bals parts) =
    (be_bytes 8 cd ++ bn ++ bpa ++ bad ++ bd ++ bal,
     Some (Errorf "expected maximum number of participants %d, got %d"
             [MaxInt32; Z.of_nat (length parts)])).
Proof. apply encode_too_many_parts. Qed.

Lemma encode_parts_ok (l : list Address) (i : nat) :
  Forall (fun a => exists bs, Address_Encode a = (bs, None)) l ->
  exists bs, encode_parts i l = (bs, None).
Proof.
  revert i. induction l as [|a l IH]; intros i Hl; [exists []; reflexivity|].
  inversion Hl as [|? ? [bsa Hea] Hl']; subst.
  destruct (IH (S i) Hl') as [bs2 He2].
  exists (bsa ++ bs2). simpl. rewrite Hea, He2. reflexivity.
Qed.

(** C9.  [Encode] does not check the minimum number of participants: with
    0 or 1 participants, when every field (and the participant, if any)
    encodes without error, [Encode] succeeds; the count is written as a
    32-bit integer that reads back as that same small count. *)
Theorem encode_allows_few_parts (cd : Z) (n : option Z) (pa ad : Address)
  (d : Data) (bals : option Allocation) (parts : list Address)
  (bn bpa bad bd bal : list byte) :
  BigInt_Encode n = (bn, None) ->
  Address_Encode pa = (bpa, None) ->
  Address_Encode ad = (bad, None) ->
  Data_Encode d = (bd, None) ->
  Allocation_Encode bals = (bal, None) ->
  (length parts < 2)%nat ->
  Forall (fun a => exists bs, Address_Encode a = (bs, None)) parts ->
  exists bps,
    ChannelProposal_Encode (mkChannelProposal cd n pa ad d bals parts) =
      (be_bytes 8 cd ++ bn ++ bpa ++ bad ++ bd ++ bal
         ++ be_bytes 4 (Z.of_nat (length parts)) ++ bps, None) /\
    decode_int32 (be_bytes 4 (Z.of_nat (length parts)) ++ bps)
      = (Z.of_nat (length parts), bps, None).
Proof.
  intros Hn Hpa Had Hd Hbal Hlt Hparts.
  destruct (encode_parts_ok parts 0 Hparts) as [bps Hps].
  exists bps. split.
  - rewrite (encode_prefix_ok cd n pa ad d bals parts bn bpa bad bd bal) by assumption.
    rewrite Z.gtb_ltb. replace (MaxInt32 <? Z.of_nat (length parts)) with false
      by (symmetry; apply Z.ltb_ge; unfold MaxInt32; lia).
    rewrite wrap_int32_small by (unfold MaxInt32; lia).
    rewrite Hps. unfold wseq, encode_int32. cbn beta iota zeta.
    rewrite !app_assoc. reflexivity.
  - apply (decode_int32_encode (Z.of_nat (length parts)) bps). unfold MaxInt32; lia.
Qed.

(** ** Decoding is not atomic *)

Ltac case_match_in H :=
  match type of H with
  | context [match ?x with _ => _ end] => let Ex := fresh "Ex" in destruct x eqn:Ex
  end; cbn beta iota zeta in H.



End Proofs.

(** ** The global backend *)

Module GlobalBackendFacts.
Import GlobalBackend.

Lemma run_ops_installed {Params ID Account State Sig Addr : Type}
  (b : @Backend Params ID Account State Sig Addr) (ops : list Op) (g : Global) :
  g.(backend) = Some b ->
  run_ops ops g =
    Return (map (direct_result b) ops)
           (mkGlobal (Some b) (g.(calls) ++ map (direct_call b) ops)).
Proof.
  revert g. induction ops as [|op ops IH]; intros [bk cs] Hb; cbn in Hb; subst bk.
  - cbn. rewrite app_nil_r. reflexivity.
  - assert (Hop : run_op op (mkGlobal (Some b) cs) =
                  Return (direct_result b op) (mkGlobal (Some b) (cs ++ [direct_call b op])))
      by (destruct op; reflexivity).
    cbn [run_ops]. rewrite Hop, IH by reflexivity.
    cbn [calls map]. rewrite <- app_assoc. reflexivity.
Qed.

(** C4.  After [SetBackend b], any sequence of calls to the package-level
    [ChannelID], [Sign] and [Verify] returns, call by call, what the
    corresponding method of [b] returns on the same arguments, and the
    methods invoked are exactly one call of the corresponding method on [b]
    per call, with the arguments unchanged, in order; [b] stays installed,
    whatever backend was installed before. *)
Theorem backend_delegation {Params ID Account State Sig Addr : Type}
  (b : @Backend Params ID Account State Sig Addr) (g : Global) (ops : list Op) :
  run_ops ops (SetBackend b g) =
    Return (map (direct_result b) ops)
           (mkGlobal (Some b) (g.(calls) ++ map (direct_call b) ops)).
Proof. exact (run_ops_installed b ops (SetBackend b g) eq_refl). Qed.

End GlobalBackendFacts.

(** ** Error reporting *)

(** C6.  With the concrete collaborators, the second participant [xff]
    cannot be encoded: [Address.Encode] returns "invalid address", and
    [Encode] returns "error encoding participant %d" with index 1, an error
    that does not carry the one of [Address.Encode]. *)
Theorem participant_encode_error_dropped :
  @ChannelProposal_Encode toy_ext (toy_proposal [x02; xff]) =
    (be_bytes 8 100 ++ [x2a; x07; x01; x05; x09] ++ be_bytes 4 2 ++ [x02],
     Some (Errorf "error encoding participant %d" [1])) /\
  @Address_Encode toy_ext xff = ([], Some (Err "invalid address")) /\
  ~ Wraps (Errorf "error encoding participant %d" [1]) (Err "invalid address").
Proof.
  split; [vm_compute; reflexivity|]. split; [reflexivity|].
  cbn. intros [H|H]; [discriminate H | exact H].
Qed.


(** ** Witnesses on the concrete collaborators *)

Ltac toy_roundtrip := eexists; split; [reflexivity | intros; reflexivity].

Lemma proposal_messages_roundtrip_witness :
  (exists bs, ChannelProposal_Encode (toy_proposal [x02; x03]) = (bs, None) /\
     forall c rest, ChannelProposal_Decode c (bs ++ rest) = (toy_proposal [x02; x03], rest, None)) /\
  (exists bs, ChannelProposalAcc_Encode (@mkChannelProposalAcc toy_ext (repeat x03 32) x07) = (bs, None) /\
     forall c rest, ChannelProposalAcc_Decode c (bs ++ rest)
                    = (@mkChannelProposalAcc toy_ext (repeat x03 32) x07, rest, None)) /\
  (exists bs, @ChannelProposalRej_Encode toy_ext (mkChannelProposalRej (repeat x03 32) "no") = (bs, None) /\
     forall c rest, @ChannelProposalRej_Decode toy_ext c (bs ++ rest)
                    = (mkChannelProposalRej (repeat x03 32) "no", rest, None)).
Proof.
  destruct (@proposal_messages_roundtrip toy_ext) as [Hp [Ha Hr]].
  split; [|split].
  - apply (Hp (toy_proposal [x02; x03]) tt x09).
    + cbn. lia.
    + toy_roundtrip.
    + toy_roundtrip.
    + toy_roundtrip.
    + reflexivity.
    + toy_roundtrip.
    + reflexivity.
    + toy_roundtrip.
    + cbn. lia.
    + cbn. unfold MaxInt32. lia.
    + repeat constructor; toy_roundtrip.
  - apply Ha; [reflexivity | toy_roundtrip].
  - apply Hr; [reflexivity | toy_roundtrip].
Defined.

(** The scenario of a count of 1 followed by one well-formed address. *)
Lemma decode_rejects_few_parts_witness :
  ChannelProposal_Decode ChannelProposal_zero (fst (ChannelProposal_Encode (toy_proposal [x02])))
  = (@mkChannelProposal toy_ext 100 (Some 42) x07 x01 x05 (Some x09) [], [x02],
     Some (Errorf "expected at least 2 participants, got %d" [1])).
Proof.
  eapply (@decode_rejects_few_parts toy_ext ChannelProposal_zero).
  all: first [reflexivity | lia].
Defined.

Lemma decode_unknown_app_witness :
  ChannelProposal_Decode ChannelProposal_zero
    (fst (ChannelProposal_Encode (@mkChannelProposal toy_ext 100 (Some 42) x07 x02 x05 (Some x09) [x02; x03])))
  = (@mkChannelProposal toy_ext 100 (Some 42) x07 x02 x00 None [], [x05; x09] ++ be_bytes 4 2 ++ [x02; x03],
     Some (Err "unknown app")).
Proof.
  eapply (@decode_unknown_app toy_ext ChannelProposal_zero); reflexivity.
Defined.

Lemma encode_rejects_too_many_parts_witness :
  ChannelProposal_Encode (toy_proposal (repeat x02 (Z.to_nat 2147483648))) =
    (be_bytes 8 100 ++ [x2a] ++ [x07] ++ [x01] ++ [x05] ++ [x09],
     Some (Errorf "expected maximum number of participants %d, got %d"
             [MaxInt32; Z.of_nat (length (repeat x02 (Z.to_nat 2147483648)))])).
Proof.
  apply (@encode_rejects_too_many_parts toy_ext);
    [reflexivity | reflexivity | reflexivity | reflexivity | reflexivity |].
  rewrite repeat_length, Z2Nat.id by lia. unfold MaxInt32. lia.
Defined.

(** C3 as stated fails: bytes are written before the count is checked. *)
Lemma encode_too_many_parts_writes_bytes :
  exists bs e,
    ChannelProposal_Encode (toy_proposal (repeat x02 (Z.to_nat 2147483648))) = (bs, Some e) /\
    bs <> [].
Proof.
  do 2 eexists. split.
  - apply (@encode_too_many_parts toy_ext);
      [reflexivity | reflexivity | reflexivity | reflexivity | reflexivity |].
    rewrite repeat_length, Z2Nat.id by lia. unfold MaxInt32. lia.
  - cbn. discriminate.
Qed.

Lemma encode_allows_few_parts_witness :
  exists bps,
    ChannelProposal_Encode (toy_proposal [x02]) =
      (be_bytes 8 100 ++ [x2a] ++ [x07] ++ [x01] ++ [x05] ++ [x09]
         ++ be_bytes 4 (Z.of_nat (length [x02])) ++ bps, None) /\
    decode_int32 (be_bytes 4 (Z.of_nat (length [x02])) ++ bps)
      = (Z.of_nat (length [x02]), bps, None).
Proof.
  apply (@encode_allows_few_parts toy_ext); try reflexivity.
  - cbn. lia.
  - repeat constructor. eexists; reflexivity.
Defined.


(** * Further properties of the proposal messages *)

Section MoreProofs.
Context {E : Ext}.

Ltac case_match_in H :=
  match type of H with
  | context [match ?x with _ => _ end] => let Ex := fresh "Ex" in destruct x eqn:Ex
  end; cbn beta iota zeta in H.

Lemma length_set_nth {A : Type} (s : list A) (i : nat) (v : A) :
  length (set_nth s i v) = length s.
Proof. revert i. induction s as [|x s IH]; intros [|i]; simpl; auto. Qed.

Lemma decode_parts_length (k i : nat) (parts : list Address) (r : list byte) :
  length (fst (fst (decode_parts k i parts r))) = length parts.
Proof.
  revert i parts r. induction k as [|k IH]; intros i parts r; [reflexivity|].
  cbn [decode_parts]. destruct (DecodeAddress r) as [[a r'] [e|]].
  - cbn. apply length_set_nth.
  - rewrite IH. apply length_set_nth.
Qed.


Lemma encode_parts_fail (pre post : list Address) (a : Address) (i : nat)
  (bs_pre bsa : list byte) (e0 : error) :
  encode_parts i pre = (bs_pre, None) ->
  Address_Encode a = (bsa, Some e0) ->
  encode_parts i (pre ++ a :: post) =
    (bs_pre ++ bsa, Some (Errorf "error encoding participant %d" [Z.of_nat (i + length pre)])).
Proof.
  revert i bs_pre. induction pre as [|x pre IH]; intros i bs_pre Hpre Ha.
  - cbn in Hpre. injection Hpre as <-. cbn. rewrite Ha, Nat.add_0_r. reflexivity.
  - cbn [encode_parts] in Hpre. cbn [encode_parts Datatypes.app].
    destruct (Address_Encode x) as [bsx [ex|]]; [discriminate Hpre|].
    destruct (encode_parts (S i) pre) as [bs2 [e2|]] eqn:He2; [discriminate Hpre|].
    injection Hpre as <-.
    rewrite (IH (S i) bs2 He2 Ha), app_assoc.
    cbn [length]. rewrite Nat.add_succ_r. reflexivity.
Qed.

(** X9.  A successful [Decode] always yields at least two participants:
    whatever the stream, when [Decode] returns no error the receiver's
    [Parts] has length at least 2. *)
Theorem decode_ok_has_two_parts (c : ChannelProposal) (r : list byte)
  (c' : ChannelProposal) (r' : list byte) :
  ChannelProposal_Decode c r = (c', r', None) ->
  (2 <= length c'.(Parts))%nat.
Proof.
  intros Hdec. unfold ChannelProposal_Decode in Hdec.
  repeat case_match_in Hdec.
  all: try discriminate Hdec.
  injection Hdec as <- _. cbn [Parts set_Parts].
  subst.
  match goal with
  | Hp : decode_parts ?k ?i ?ps ?r = _ |- _ =>
      pose proof (decode_parts_length k i ps r) as HL; rewrite Hp in HL
  end.
  cbn in HL. rewrite HL, repeat_length.
  match goal with Hlt : (_ <? 2) = false |- _ => apply Z.ltb_ge in Hlt end.
  lia.
Qed.



(** X3.  [Encode] stops at the first field that fails: when the [Nonce]
    cannot be encoded (for instance a nil [*big.Int]), its error is returned
    as it is and only the 8 bytes of [ChallengeDuration] and what the
    [Nonce] encoder wrote are on the writer. *)
Theorem encode_nonce_failure (cd : Z) (n : option Z) (pa ad : Address) (d : Data)
  (bals : option Allocation) (parts : list Address) (bn : list byte) (e : error) :
  BigInt_Encode n = (bn, Some e) ->
  ChannelProposal_Encode (mkChannelProposal cd n pa ad d bals parts) =
    (be_bytes 8 cd ++ bn, Some e).
Proof.
  intros Hn. unfold ChannelProposal_Encode, wseq at 1 2 3, encode_uint64.
  cbn [ChallengeDuration Nonce]. rewrite Hn. reflexivity.
Qed.

(** X4.  When participant [i] is the first one that fails to encode,
    [Encode] returns "error encoding participant %d" with index [i], after
    writing every field before the participants, the participant count, the
    participants before [i] and what the encoder of participant [i] wrote;
    nothing of the later participants is written. *)
Theorem encode_part_failure (cd : Z) (n : option Z) (pa ad : Address) (d : Data)
  (bals : option Allocation) (pre post : list Address) (a : Address)
  (bn bpa bad bd bal bs_pre bsa : list byte) (e0 : error) :
  BigInt_Encode n = (bn, None) ->
  Address_Encode pa = (bpa, None) ->
  Address_Encode ad = (bad, None) ->
  Data_Encode d = (bd, None) ->
  Allocation_Encode bals = (bal, None) ->
  Z.of_nat (length (pre ++ a :: post)) <= MaxInt32 ->
  encode_parts 0 pre = (bs_pre, None) ->
  Address_Encode a = (bsa, Some e0) ->
  ChannelProposal_Encode (mkChannelProposal cd n pa ad d bals (pre ++ a :: post)) =
    (be_bytes 8 cd ++ bn ++ bpa ++ bad ++ bd ++ bal
       ++ be_bytes 4 (Z.of_nat (length (pre ++ a :: post))) ++ bs_pre ++ bsa,
     Some (Errorf "error encoding participant %d" [Z.of_nat (length pre)])).
Proof.
  intros Hn Hpa Had Hd Hbal Hlen Hpre Ha.
  rewrite (encode_prefix_ok cd n pa ad d bals (pre ++ a :: post) bn bpa bad bd bal)
    by assumption.
  rewrite Z.gtb_ltb.
  replace (MaxInt32 <? Z.of_nat (length (pre ++ a :: post))) with false
    by (symmetry; apply Z.ltb_ge; lia).
  rewrite wrap_int32_small by lia.
  unfold wseq, encode_int32.
  rewrite (encode_parts_fail pre post a 0 bs_pre bsa e0 Hpre Ha).
  cbn beta iota zeta. rewrite !app_assoc. reflexivity.
Qed.


(** X6.  [ChannelProposalAcc.Encode] writes the 32 bytes of the session id
    and then the address; an address that fails to encode gives
    "participant address encoding" around its error. *)
Theorem acc_encode_address_failure (sid : SessionID) (a : Address)
  (bsa : list byte) (e : error) :
  Address_Encode a = (bsa, Some e) ->
  ChannelProposalAcc_Encode (mkChannelProposalAcc sid a) =
    (sid ++ bsa, Some (WithMessage e "participant address encoding")).
Proof.
  intros Ha. unfold ChannelProposalAcc_Encode, wseq, wrap_w, encode_SessionID.
  cbn [Acc_SessID Acc_ParticipantAddr]. rewrite Ha. reflexivity.
Qed.

(** X7.  When the [Reason] of a [ChannelProposalRej] cannot be decoded
    after a complete session id, [Decode] returns the string decoder's error
    as it is; the session id is stored and [Reason] keeps its previous
    value. *)
Theorem rej_decode_reason_failure (rej : ChannelProposalRej) (sid rest : list byte)
  (s' : string) (r' : list byte) (e : error) :
  length sid = 32%nat ->
  String_Decode rest = (s', r', Some e) ->
  ChannelProposalRej_Decode rej (sid ++ rest) =
    (mkChannelProposalRej sid rej.(Reason), r', Some e).
Proof.
  intros Hsid Hfail. unfold ChannelProposalRej_Decode.
  pose proof (decode_SessionID_encode sid rest Hsid) as Hs.
  cbn [fst encode_SessionID] in Hs. rewrite Hs. cbn beta iota zeta.
  rewrite Hfail. reflexivity.
Qed.

(** X8.  The decoders registered in [init] invert the encoders: the
    registered decoder of each message type, applied to the bytes [Encode]
    writes for a valid message of that type, returns that message and no
    error. *)
Theorem registered_decoders_roundtrip :
  (forall (p : ChannelProposal) (app : App) (al : Allocation),
    0 <= p.(ChallengeDuration) < 2 ^ 64 ->
    roundtrip BigInt_Encode BigInt_Decode p.(Nonce) ->
    roundtrip Address_Encode DecodeAddress p.(ParticipantAddr) ->
    roundtrip Address_Encode DecodeAddress p.(AppDef) ->
    AppFromDefinition p.(AppDef) = (app, None) ->
    roundtrip Data_Encode (App_DecodeData app) p.(InitData) ->
    p.(InitBals) = Some al ->
    roundtrip (fun a => Allocation_Encode (Some a)) (Allocation_Decode alloc_zero) al ->
    (2 <= length p.(Parts))%nat ->
    Z.of_nat (length p.(Parts)) <= MaxInt32 ->
    Forall (roundtrip Address_Encode DecodeAddress) p.(Parts) ->
    decoder TChannelProposal (fst (ChannelProposal_Encode p)) = (MsgChannelProposal p, None)) /\
  (forall acc : ChannelProposalAcc,
    length acc.(Acc_SessID) = 32%nat ->
    roundtrip Address_Encode DecodeAddress acc.(Acc_ParticipantAddr) ->
    decoder TChannelProposalAcc (fst (ChannelProposalAcc_Encode acc)) = (MsgChannelProposalAcc acc, None)) /\
  (forall rej : ChannelProposalRej,
    length rej.(Rej_SessID) = 32%nat ->
    roundtrip String_Encode String_Decode rej.(Reason) ->
    decoder TChannelProposalRej (fst (ChannelProposalRej_Encode rej)) = (MsgChannelProposalRej rej, None)).
Proof.
  split; [|split].
  - intros p app al H1 H2 H3 H4 H5 H6 H7 H8 H9 H10 H11.
    destruct (ChannelProposal_roundtrip p app al H1 H2 H3 H4 H5 H6 H7 H8 H9 H10 H11)
      as [bs [He Hd]].
    rewrite He. cbn [fst decoder]. rewrite <- (app_nil_r bs), Hd. reflexivity.
  - intros acc H1 H2.
    destruct (ChannelProposalAcc_roundtrip acc H1 H2) as [bs [He Hd]].
    rewrite He. cbn [fst decoder]. rewrite <- (app_nil_r bs), Hd. reflexivity.
  - intros rej H1 H2.
    destruct (ChannelProposalRej_roundtrip rej H1 H2) as [bs [He Hd]].
    rewrite He. cbn [fst decoder]. rewrite <- (app_nil_r bs), Hd. reflexivity.
Qed.

End MoreProofs.

(** ** Witnesses of the further properties *)

Ltac toy_forall :=
  repeat (apply Forall_cons; [toy_roundtrip|]); apply Forall_nil.



Lemma encode_nonce_failure_witness :
  ChannelProposal_Encode (@mkChannelProposal toy_ext 100 None x07 x01 x05 (Some x09) [x02; x03])
  = (be_bytes 8 100 ++ [], Some (Err "nil big.Int")).
Proof. apply (@encode_nonce_failure toy_ext). reflexivity. Defined.

Lemma encode_part_failure_witness :
  ChannelProposal_Encode
    (@mkChannelProposal toy_ext 100 (Some 42) x07 x01 x05 (Some x09) ([x02] ++ xff :: [x03]))
  = (be_bytes 8 100 ++ [x2a] ++ [x07] ++ [x01] ++ [x05] ++ [x09]
       ++ be_bytes 4 (Z.of_nat (length ([x02] ++ xff :: [x03]))) ++ [x02] ++ [],
     Some (Errorf "error encoding participant %d" [Z.of_nat (length [x02])])).
Proof.
  eapply (@encode_part_failure toy_ext).
  all: first [reflexivity | (cbn; unfold MaxInt32; lia)].
Defined.


Lemma acc_encode_address_failure_witness :
  ChannelProposalAcc_Encode (@mkChannelProposalAcc toy_ext (repeat x03 32) xff)
  = (repeat x03 32 ++ [], Some (WithMessage (Err "invalid address") "participant address encoding")).
Proof. apply (@acc_encode_address_failure toy_ext). reflexivity. Defined.

Lemma rej_decode_reason_failure_witness :
  @ChannelProposalRej_Decode toy_ext (mkChannelProposalRej (repeat x00 32) "old") (repeat x03 32 ++ [])
  = (mkChannelProposalRej (repeat x03 32) "old", [], Some io_EOF).
Proof. apply (@rej_decode_reason_failure toy_ext) with (s' := ""); reflexivity. Defined.

Lemma registered_decoders_roundtrip_witness :
  decoder TChannelProposal (fst (ChannelProposal_Encode (toy_proposal [x02; x03])))
    = (MsgChannelProposal (toy_proposal [x02; x03]), None) /\
  decoder TChannelProposalAcc
    (fst (ChannelProposalAcc_Encode (@mkChannelProposalAcc toy_ext (repeat x03 32) x07)))
    = (MsgChannelProposalAcc (@mkChannelProposalAcc toy_ext (repeat x03 32) x07), None) /\
  @decoder toy_ext TChannelProposalRej
    (fst (@ChannelProposalRej_Encode toy_ext (mkChannelProposalRej (repeat x03 32) "no")))
    = (MsgChannelProposalRej (mkChannelProposalRej (repeat x03 32) "no"), None).
Proof.
  destruct (@registered_decoders_roundtrip toy_ext) as [Hp [Ha Hr]].
  split; [|split].
  - apply (Hp (toy_proposal [x02; x03]) tt x09).
    all: first [reflexivity | (cbn; unfold MaxInt32; lia) | toy_roundtrip | toy_forall].
  - apply Ha; [reflexivity | toy_roundtrip].
  - apply Hr; [reflexivity | toy_roundtrip].
Defined.

Lemma decode_ok_has_two_parts_witness :
  ChannelProposal_Decode ChannelProposal_zero (fst (ChannelProposal_Encode (toy_proposal [x02; x03])))
    = (toy_proposal [x02; x03], [], None) /\
  (2 <= length (toy_proposal [x02; x03]).(Parts))%nat.
Proof.
  assert (Hd : ChannelProposal_Decode ChannelProposal_zero
                 (fst (ChannelProposal_Encode (toy_proposal [x02; x03])))
               = (toy_proposal [x02; x03], [], None)) by reflexivity.
  split; [exact Hd | exact (@decode_ok_has_two_parts toy_ext _ _ _ _ Hd)].
Defined.
